(** * BehaviorTree.CPP: the TreeNode core (include/behaviortree_cpp/tree_node.h)

    A shallow embedding of [BT::TreeNode]: the port resolution templates
    [getParam] and [setOutput] are translated from the header; the parts of
    the class whose bodies live in [tree_node.cpp] (constructor, [setStatus],
    [waitValidStatus]) and the collaborators declared in other
    headers (the blackboard, [SafeAny::Any], [convertFromString],
    [isParseableString]) are interfaces or are modelled from the
    specification, and say so. *)

From stdpp Require Import base option list gmap strings.
From Stdlib Require Import ZArith Lia Ascii.

Local Open Scope string_scope.
Local Open Scope Z_scope.

(** ** Exceptions and outcomes *)

(** The C++ exceptions that can cross [getParam]'s [try] block.  The handler
    at line 212 is [catch (std::runtime_error&)]: it takes [std::runtime_error]
    and the classes derived from it, nothing else. *)
Inductive exn : Type :=
  | runtime_error (what : string)   (* std::runtime_error, or derived from it *)
  | out_of_range (what : string)    (* std::out_of_range, a std::logic_error *)
  | other_exception (what : string) (* any other exception type *).

Definition is_runtime_error (e : exn) : bool :=
  match e with
  | runtime_error _ => true
  | _ => false
  end.

Definition what (e : exn) : string :=
  match e with
  | runtime_error w | out_of_range w | other_exception w => w
  end.

(** A C++ expression that yields a value or throws. *)
Inductive thrown (A : Type) : Type :=
  | Value (a : A)
  | Throw (e : exn).
Arguments Value {A} a.
Arguments Throw {A} e.

Definition thrown_bind {A B} (f : A -> thrown B) (x : thrown A) : thrown B :=
  match x with
  | Value a => f a
  | Throw e => Throw e
  end.

#[global] Instance thrown_ret : MRet thrown := fun _ a => Value a.
#[global] Instance thrown_mbind : MBind thrown := fun _ _ f x => thrown_bind f x.

(** How a call of a member function ends: it returns, an exception unwinds
    out of it, or it dereferences the null [bb_] pointer (undefined
    behaviour in C++, kept apart from both). *)
Inductive outcome (A : Type) : Type :=
  | Returns (a : A)
  | Unwinds (e : exn)
  | NullDereference.
Arguments Returns {A} a.
Arguments Unwinds {A} e.
Arguments NullDereference {A}.

(** What is written to [std::cerr] and [std::cout]. *)
Inductive stream : Type := Cerr | Cout.
Definition diagnostic : Type := stream * string.

(** A call's result: the lines it printed and how it ended. *)
Definition result (A : Type) : Type := list diagnostic * outcome A.

(** ** StringView *)

Definition size_t_modulus : Z := 2 ^ 64.

(** [str.size()] as a [size_t]. *)
Definition size (s : string) : Z := Z.of_nat (String.length s).

(** Subtraction on [size_t]: [remapped_key.size()-2] wraps below zero. *)
Definition size_t_sub (a b : Z) : Z := (a - b) mod size_t_modulus.

(** [basic_string_view::substr(pos, count)]: a new view, the receiver is
    left as it is; throws [std::out_of_range] when [pos > size()]. *)
Definition substr (s : string) (pos count : Z) : thrown string :=
  if size s <? pos
  then Throw (out_of_range "string_view::substr")
  else Value (String.substring (Z.to_nat pos) (Z.to_nat (Z.min count (size s - pos))) s).

(** ** Collaborators declared outside this header *)

(** [SafeAny::Any], the entry type of the blackboard, and
    [TreeNode::isParseableString], declared at line 136 and defined in
    [tree_node.cpp]: both are taken as an interface. *)
Class Collaborators : Type := {
  Any : Type;
  (* TreeNode::isParseableString(StringView) *)
  isParseableString : string -> bool;
  (* val->type() == typeid(std::string) || val->type() == typeid(SafeAny::SimpleString) *)
  holds_string : Any -> bool;
  (* val->cast<std::string>() *)
  cast_string : Any -> thrown string
}.

(** What the templates ask of their type argument [T]. *)
Class PortType `{Collaborators} (T : Type) : Type := {
  (* std::is_same<T, std::string>::value *)
  is_std_string : bool;
  (* convertFromString<T>(StringView) *)
  convertFromString : string -> thrown T;
  (* val->cast<T>() *)
  cast : Any -> thrown T;
  (* the entry Blackboard::set(key, value) stores for a value of type T *)
  make_any : T -> Any;
  (* the value of a default-constructed T (line 126) *)
  default_constructed : T
}.

(** A type with an implicit converting constructor from [BT::nullopt_t],
    such as [BT::optional<U>]; [from_nullopt] is the value that constructor
    builds.  [int] and [std::string] have none. *)
Class ConstructibleFromNullopt (T : Type) : Type := {
  from_nullopt : T
}.

(** ** Data model *)

(** basic_types.h: [enum class NodeStatus]. *)
Inductive NodeStatus : Type := IDLE | RUNNING | SUCCESS | FAILURE.

#[global] Instance NodeStatus_eq_dec : EqDecision NodeStatus.
Proof. solve_decision. Defined.

(** basic_types.h: [enum class NodeType]. *)
Inductive NodeType : Type :=
  | UNDEFINED | ACTION | CONDITION | CONTROL | DECORATOR | SUBTREE.

(** A [Blackboard::Ptr] is a shared pointer: several nodes hold the same
    blackboard.  Blackboards live in a heap and a pointer is an address or
    null. *)
Definition address : Type := nat.
Definition BlackboardPtr : Type := option address.

(** line 33: [typedef std::unordered_map<std::string, std::string> PortsRemapping]. *)
Abbreviation PortsRemapping := (gmap string string).

(** lines 35-40 *)
Record NodeConfiguration : Type := {
  blackboard : BlackboardPtr;
  registration_ID : string;
  ports_remapping : PortsRemapping
}.

(** lines 45-50; [PortsList] is an [unordered_set] of strings. *)
Record TreeNodeManifest : Type := {
  manifest_type : NodeType;
  manifest_registration_ID : string;
  ports : gset string
}.

(** A status-change callback is known by its identity; calling it is
    recorded as an event. *)
Definition StatusChangeCallback : Type := nat.

(** lines 147-163: the private members.  The mutex and the condition
    variable carry no data; what they do is recorded by [event]s. *)
Record TreeNode : Type := {
  name_ : string;
  status_ : NodeStatus;
  state_change_signal_ : list StatusChangeCallback;
  uid_ : Z;                                   (* const uint16_t *)
  config_ : NodeConfiguration;                (* const *)
  bb_ : BlackboardPtr
}.

Section Blackboard.
Context `{Collaborators}.

(** Modelled from the spec: the blackboard class (blackboard/blackboard.h)
    is missing; section 6 gives its contract, [get(key)] returning an
    optional type-erased entry and [set(key, value)] with create-or-overwrite
    semantics. *)
Definition Blackboard : Type := gmap string Any.

Definition getAny (bb : Blackboard) (key : string) : option Any := bb !! key.

Definition Blackboard_set (bb : Blackboard) (key : string) (value : Any) : Blackboard :=
  <[key := value]> bb.

(** The blackboards that exist, by address. *)
Definition heap : Type := gmap address (gmap string Any).

(** [*bb_] for a non-null pointer; an address nothing was stored at
    holds an empty blackboard. *)
Definition deref (h : heap) (a : address) : Blackboard := default ∅ (h !! a).
End Blackboard.

(** ** Port resolution (lines 168-241) *)

Section PortResolution.
Context `{Collaborators} {T : Type} `{!PortType T}.

(** lines 177-181: the remapped key, with "=" standing for the port key. *)
Definition remapped (key second : string) : string :=
  if decide (second = "=") then key else second.

(** lines 198-210: what is done with the pointer [getAny] returned. *)
Definition read_entry (val : option Any) (destination : T) : thrown (bool * T) :=
  match val with
  | Some v =>
      if negb is_std_string && holds_string v
      then s ← cast_string v; d ← convertFromString s; mret (true, d)
      else d ← cast v; mret (true, d)
  | None => mret (false, destination)
  end.

(** lines 184-210: the body of the [try] block. *)
Definition getParam_try (bb : BlackboardPtr) (h : heap) (remapped_key : string)
    (destination : T) : thrown (list diagnostic * (bool * T)) :=
  if isParseableString remapped_key then
    (* line 186: the view substr returns is dropped *)
    _ ← substr remapped_key 1 (size_t_sub (size remapped_key) 2);
    d ← convertFromString remapped_key;
    mret ([], (true, d))
  else
    match bb with
    | None =>
        mret ([(Cerr, "getParam() trying to access a Blackboard (BB) entry, but BB is invalid")],
              (false, destination))
    | Some a =>
        r ← read_entry (getAny (deref h a) remapped_key) destination;
        mret ([], r)
    end.

(** lines 182-216: the [try] block with its handler. *)
Definition getParam_catch (key : string) (destination : T)
    (body : thrown (list diagnostic * (bool * T))) : result (bool * T) :=
  match body with
  | Value (out, r) => (out, Returns r)
  | Throw e =>
      if is_runtime_error e
      then ([(Cout, "Exception at getParam(" +:+ key +:+ "): " +:+ what e)],
            Returns (false, destination))
      else ([], Unwinds e)
  end.

(** lines 168-217: [bool getParam(const std::string& key, T& destination) const].
    The result carries the returned flag and the final [destination]. *)
Definition getParam (n : TreeNode) (h : heap) (key : string) (destination : T)
    : result (bool * T) :=
  match ports_remapping (config_ n) !! key with
  | None =>
      ([(Cerr, "getParam() will fail unless you correctly set remapping in NodeConfiguration")],
       Returns (false, destination))
  | Some second =>
      let remapped_key := remapped key second in
      getParam_catch key destination (getParam_try (bb_ n) h remapped_key destination)
  end.

(** lines 123-128: [BT::optional<T> getParam(const std::string& key) const].
    Line 127 is [getParam(key, out) ? std::move(out) : BT::nullopt]: the two
    branches of the conditional operator have the unrelated types [T] and
    [nullopt_t].  The expression is well-formed only when [BT::nullopt]
    converts implicitly to [T], and then it has type [T]: the false branch
    is [T(BT::nullopt)], and the return statement wraps either branch in an
    engaged optional.  For any other [T] (for [int], for [std::string]) the
    member cannot be instantiated, and there is nothing to embed. *)
Definition getParam_optional `{!ConstructibleFromNullopt T}
    (n : TreeNode) (h : heap) (key : string) : result (option T) :=
  let out := default_constructed in
  match getParam n h key out with
  | (o, Returns (true, out')) => (o, Returns (Some out'))
  | (o, Returns (false, _)) => (o, Returns (Some from_nullopt))
  | (o, Unwinds e) => (o, Unwinds e)
  | (o, NullDereference) => (o, NullDereference)
  end.

(** lines 219-241: [bool setOutput(const std::string& key, const T& value)].
    The result carries the returned flag and the heap after the call. *)
Definition setOutput (n : TreeNode) (h : heap) (key : string) (value : T)
    : result (bool * heap) :=
  match ports_remapping (config_ n) !! key with
  | None =>
      ([(Cerr, "setOutput() will fail unless you correctly set remapping in NodeConfiguration")],
       Returns (false, h))
  | Some second =>
      let remapped_key := remapped key second in
      if isParseableString remapped_key then
        ([(Cerr, "setOutput() failed because you are using a parseable string")],
         Returns (false, h))
      else
        (* line 239: bb_->set(...), with no check of bb_ *)
        match bb_ n with
        | None => ([], NullDereference)
        | Some a =>
            ([], Returns (true, <[a := Blackboard_set (deref h a) remapped_key (make_any value)]> h))
        end
  end.
End PortResolution.

(** ** Identity (line 112, line 159) *)

(** [uid_] is a [uint16_t]. *)
Definition uint16_max : Z := 65535.

(** Modelled from the spec: the constructor and the counter it draws from
    are in tree_node.cpp, which is missing.  Sections 3 and 4.4: the id comes
    from a process-wide monotonically increasing counter, incremented exactly
    once per construction, in one synchronized step; section 7: exhaustion
    of the counter is an unrecoverable fault.  The counter is the next id to
    hand out; a value that does not fit [uid_] is the exhausted counter. *)
Definition getUID (counter : Z) : option (Z * Z) :=
  if decide (0 <= counter <= uint16_max)
  then Some (counter, counter + 1)
  else None.

(** Modelled from the spec: [TreeNode(name, config)] (line 69, body in
    tree_node.cpp): a node starts [IDLE], without subscribers, with its
    configuration's store reference, and keeps the id it drew. *)
Definition TreeNode_new (counter : Z) (name : string) (config : NodeConfiguration)
    : option (Z * TreeNode) :=
  match getUID counter with
  | Some (uid, counter') =>
      Some (counter', {| name_ := name; status_ := IDLE; state_change_signal_ := [];
                         uid_ := uid; config_ := config; bb_ := blackboard config |})
  | None => None
  end.

(** Nodes constructed one after the other, in the order in which the
    constructions take their step on the counter; threads that construct
    nodes concurrently give one such order. *)
Fixpoint construct_all (counter : Z) (requests : list (string * NodeConfiguration))
    : option (Z * list TreeNode) :=
  match requests with
  | [] => Some (counter, [])
  | (name, config) :: rest =>
      match TreeNode_new counter name config with
      | Some (counter', n) =>
          match construct_all counter' rest with
          | Some (counter'', ns) => Some (counter'', n :: ns)
          | None => None
          end
      | None => None
      end
  end.

(** line 112: [uint16_t UID() const]. *)
Definition UID (n : TreeNode) : Z := uid_ n.

(** line 119: [const NodeConfiguration& config() const]. *)
Definition config (n : TreeNode) : NodeConfiguration := config_ n.

(** ** Status and notification (lines 80-109) *)

(** What a call does besides changing the node: it calls a subscribed
    callback with (node, previous status, new status), or it wakes the
    threads waiting on [state_condition_variable_]. *)
Inductive event : Type :=
  | CallbackInvoked (cb : StatusChangeCallback) (node_uid : Z) (prev_status new_status : NodeStatus)
  | NotifyAll.

Definition with_status (n : TreeNode) (s : NodeStatus) : TreeNode :=
  {| name_ := name_ n; status_ := s; state_change_signal_ := state_change_signal_ n;
     uid_ := uid_ n; config_ := config_ n; bb_ := bb_ n |}.

Definition with_subscribers (n : TreeNode) (l : list StatusChangeCallback) : TreeNode :=
  {| name_ := name_ n; status_ := status_ n; state_change_signal_ := l;
     uid_ := uid_ n; config_ := config_ n; bb_ := bb_ n |}.

(** line 82 *)
Definition status (n : TreeNode) : NodeStatus := status_ n.

(** line 80; section 4.1: true iff [status() == Idle]. *)
Definition isHalted (n : TreeNode) : bool := bool_decide (status n = IDLE).

(** Modelled from the spec: [setStatus] (line 84, body in tree_node.cpp).
    Section 4.1: if the new status differs from the current one, update it,
    then call every subscribed callback in subscription order and wake every
    waiting thread; if it is equal, do nothing. *)
Definition setStatus (n : TreeNode) (new_status : NodeStatus) : TreeNode * list event :=
  let prev_status := status_ n in
  if decide (prev_status = new_status)
  then (n, [])
  else (with_status n new_status,
        (map (fun cb => CallbackInvoked cb (uid_ n) prev_status new_status)
             (state_change_signal_ n) ++ [NotifyAll])%list).

(** The callback calls an event list holds, in order, each with the
    previous and the new status it was given. *)
Fixpoint callbacks_invoked (evs : list event)
    : list (StatusChangeCallback * NodeStatus * NodeStatus) :=
  match evs with
  | [] => []
  | CallbackInvoked cb _ prev_status new_status :: rest =>
      (cb, prev_status, new_status) :: callbacks_invoked rest
  | NotifyAll :: rest => callbacks_invoked rest
  end.

(** How many times the waiting threads are woken. *)
Fixpoint wake_ups (evs : list event) : nat :=
  match evs with
  | [] => 0%nat
  | NotifyAll :: rest => S (wake_ups rest)
  | CallbackInvoked _ _ _ _ :: rest => wake_ups rest
  end.

(** Modelled from the spec: [subscribeToStatusChange] (line 109) appends
    the callback; dropping the subscriber handle removes it (section 4.5). *)
Definition subscribeToStatusChange (n : TreeNode) (cb : StatusChangeCallback) : TreeNode :=
  with_subscribers n (state_change_signal_ n ++ [cb])%list.

Definition release_subscriber (n : TreeNode) (cb : StatusChangeCallback) : TreeNode :=
  with_subscribers n (filter (fun c => c <> cb) (state_change_signal_ n)).

(** Where a call of [waitValidStatus] stands: it has returned a status,
    leaving the node, the events so far and the [setStatus] calls still to
    come; or it is still blocked when the calls have run out. *)
Inductive waiting : Type :=
  | Returned (s : NodeStatus) (n : TreeNode) (evs : list event) (pending : list NodeStatus)
  | Blocked (n : TreeNode) (evs : list event).

(** A waiter blocked on [state_condition_variable_] while other threads
    make the given [setStatus] calls, in the order in which they take the
    lock.  A call that wakes the waiter lets it test the status before the
    next call is made. *)
Fixpoint wait_blocked (n : TreeNode) (evs : list event) (calls : list NodeStatus)
    : waiting :=
  match calls with
  | [] => Blocked n evs
  | new_status :: rest =>
      let n' := (setStatus n new_status).1 in
      let evs' := (evs ++ (setStatus n new_status).2)%list in
      if (0 <? wake_ups (setStatus n new_status).2)%nat && negb (isHalted n')
      then Returned (status n') n' evs' rest
      else wait_blocked n' evs' rest
  end.

(** Modelled from the spec: [waitValidStatus] (lines 90-92, body in
    tree_node.cpp).  Section 4.5 and the comment at line 90: it blocks the
    calling thread until [status() != Idle], then returns the current
    status; it wakes promptly when [setStatus] leaves Idle; if the node is
    not Idle when it is called, it returns at once. *)
Definition waitValidStatus (n : TreeNode) (calls : list NodeStatus) : waiting :=
  if isHalted n
  then wait_blocked n [] calls
  else Returned (status n) n [] calls.

(** ** A concrete set of collaborators *)

Module Concrete.

(** Modelled from the spec: [SafeAny::Any] (missing) is a type-erased
    value; two stored types are enough here, [int] and [std::string]. *)
Inductive any : Type :=
  | any_int (z : Z)
  | any_string (s : string).

(** Modelled from the spec: [isParseableString] (body in tree_node.cpp)
    recognizes the literal-delimiter convention of section 3, a text
    between two delimiters that is read by dropping its first and last
    character.  The pair chosen here is the square brackets. *)
Definition literal_open : Ascii.ascii := "["%char.
Definition literal_close : Ascii.ascii := "]"%char.

Definition is_bracket_literal (str : string) : bool :=
  (2 <=? String.length str)%nat
  && bool_decide (String.get 0 str = Some literal_open)
  && bool_decide (String.get (String.length str - 1) str = Some literal_close).

Definition any_holds_string (v : any) : bool :=
  match v with
  | any_string _ => true
  | any_int _ => false
  end.

(** Modelled from the spec: a checked extraction fails with a type
    mismatch (section 7), which the resolution boundary catches. *)
Definition any_cast_string (v : any) : thrown string :=
  match v with
  | any_string s => Value s
  | any_int _ => Throw (runtime_error "Any::cast failed")
  end.

Definition any_cast_int (v : any) : thrown Z :=
  match v with
  | any_int z => Value z
  | any_string _ => Throw (runtime_error "Any::cast failed")
  end.

#[global] Instance collaborators : Collaborators := {|
  Any := any;
  isParseableString := is_bracket_literal;
  holds_string := any_holds_string;
  cast_string := any_cast_string
|}.

Definition digit (c : Ascii.ascii) : option Z :=
  let n := Z.of_nat (Ascii.nat_of_ascii c) in
  if (48 <=? n) && (n <=? 57) then Some (n - 48) else None.

Fixpoint digits (acc : Z) (s : string) : option Z :=
  match s with
  | EmptyString => Some acc
  | String c s' =>
      match digit c with
      | Some d => digits (10 * acc + d) s'
      | None => None
      end
  end.

Definition int_min : Z := - 2 ^ 31.
Definition int_max : Z := 2 ^ 31 - 1.

Definition decimal (s : string) : option Z :=
  match s with
  | EmptyString => None
  | String "-"%char EmptyString => None
  | String "-"%char s' => Z.opp <$> digits 0 s'
  | _ => digits 0 s
  end.

(** Modelled from the spec: [convertFromString<int>] (basic_types.h,
    missing); section 6: [parse<T>(text) -> T], fails on malformed text.
    The text of an [int] is an optional minus sign and decimal digits. *)
Definition convertFromString_int (s : string) : thrown Z :=
  match decimal s with
  | Some z =>
      if (int_min <=? z) && (z <=? int_max)
      then Value z
      else Throw (runtime_error "convertFromString<int>: out of range")
  | None => Throw (runtime_error "convertFromString<int>: malformed text")
  end.

(** [T = int] *)
#[global] Instance port_int : PortType Z := {|
  is_std_string := false;
  convertFromString := convertFromString_int;
  cast := any_cast_int : Any -> thrown Z;
  make_any := any_int : Z -> Any;
  default_constructed := 0
|}.

(** [T = std::string]: the text is the value. *)
#[global] Instance port_string : PortType string := {|
  is_std_string := true;
  convertFromString := Value;
  cast := any_cast_string : Any -> thrown string;
  make_any := any_string : string -> Any;
  default_constructed := EmptyString
|}.

Definition configuration (bb : BlackboardPtr) (remap : list (string * string))
    : NodeConfiguration :=
  {| blackboard := bb; registration_ID := "Action"; ports_remapping := list_to_map remap |}.

(** A node as the constructor leaves it, with the id 1. *)
Definition node (bb : BlackboardPtr) (remap : list (string * string)) : TreeNode :=
  {| name_ := "node"; status_ := IDLE; state_change_signal_ := []; uid_ := 1;
     config_ := configuration bb remap; bb_ := bb |}.

(** One blackboard at address 0. *)
Definition one_store (entries : list (string * any)) : heap :=
  {[ 0%nat := list_to_map entries ]}.

(** Three nodes on the blackboard at address 0: [writer] and [reader]
    have a port on the key "out1", [other] has one on "out2". *)
Definition writer : TreeNode := node (Some 0%nat) [("result", "out1")].
Definition reader : TreeNode := node (Some 0%nat) [("input", "out1")].
Definition other : TreeNode := node (Some 0%nat) [("input", "out2")].

(** A port type for [int] whose conversion reports malformed text the way
    [std::stoi] does, with [std::invalid_argument]: a [std::logic_error],
    not a [std::runtime_error]. *)
Definition stoi (s : string) : thrown Z :=
  match decimal s with
  | Some z => Value z
  | None => Throw (other_exception "stoi")
  end.

Definition port_stoi : PortType Z := {|
  is_std_string := false;
  convertFromString := stoi;
  cast := any_cast_int : Any -> thrown Z;
  make_any := any_int : Z -> Any;
  default_constructed := 0
|}.

End Concrete.

(** ** Collaborators for a port of type [BT::optional<int>] *)

Module OptionalInt.

(** Modelled from the spec: a type-erased entry that holds a
    [BT::optional<int>] or a [std::string]. *)
Inductive any : Type :=
  | any_optional_int (o : option Z)
  | any_string (s : string).

Definition any_holds_string (v : any) : bool :=
  match v with
  | any_string _ => true
  | any_optional_int _ => false
  end.

Definition any_cast_string (v : any) : thrown string :=
  match v with
  | any_string s => Value s
  | any_optional_int _ => Throw (runtime_error "Any::cast failed")
  end.

Definition any_cast_optional_int (v : any) : thrown (option Z) :=
  match v with
  | any_optional_int o => Value o
  | any_string _ => Throw (runtime_error "Any::cast failed")
  end.

Definition collaborators : Collaborators := {|
  Any := any;
  isParseableString := Concrete.is_bracket_literal;
  holds_string := any_holds_string;
  cast_string := any_cast_string
|}.

(** Modelled from the spec: [convertFromString<BT::optional<int>>], a
    conversion its user supplies; the text of an [int] gives an engaged
    optional, malformed text fails (section 6). *)
Definition convertFromString_optional_int (s : string) : thrown (option Z) :=
  match Concrete.convertFromString_int s with
  | Value z => Value (Some z)
  | Throw e => Throw e
  end.

(** [T = BT::optional<int>]; a default-constructed optional is empty. *)
Definition port_optional_int : @PortType collaborators (option Z) := {|
  is_std_string := false;
  convertFromString := convertFromString_optional_int;
  cast := any_cast_optional_int : @Any collaborators -> thrown (option Z);
  make_any := any_optional_int : option Z -> @Any collaborators;
  default_constructed := None
|}.

(** [BT::optional<int>(BT::nullopt)] is the empty optional. *)
Definition optional_int_from_nullopt : ConstructibleFromNullopt (option Z) := {|
  from_nullopt := None
|}.

End OptionalInt.

(** * Properties *)

(** ** Port resolution, for any collaborators and any port type *)

Section PortResolutionFacts.
Context `{Collaborators} {T : Type} `{!PortType T}.
Implicit Types (n : TreeNode) (h : heap) (key second : string) (d : T).

Lemma remapped_equal_sign key : remapped key "=" = key.
Proof. unfold remapped. by rewrite decide_True. Qed.

Lemma remapped_verbatim key second : second ≠ "=" → remapped key second = second.
Proof. intros Hne. unfold remapped. by rewrite decide_False. Qed.

(** [substr(1, size()-2)] throws only on the empty view. *)
Lemma substr_1_nonempty (s : string) :
  s ≠ EmptyString →
  ∃ v, substr s 1 (size_t_sub (size s) 2) = Value v.
Proof.
  intros Hs. unfold substr, size.
  destruct s as [|c s]; [done|].
  cbn [String.length]. case_eq (Z.of_nat (S (String.length s)) <? 1); intros Hlt.
  - apply Z.ltb_lt in Hlt. lia.
  - eauto.
Qed.

(** A literal port: the converter receives the remapped key as it is
    (the view line 186 computes is not used), and neither [bb_] nor the
    heap takes part. *)
Lemma getParam_literal n h key second d :
  ports_remapping (config_ n) !! key = Some second →
  isParseableString (remapped key second) = true →
  getParam n h key d =
    getParam_catch key d
      (_ ← substr (remapped key second) 1 (size_t_sub (size (remapped key second)) 2);
       d' ← convertFromString (remapped key second);
       mret ([], (true, d'))).
Proof.
  intros Hmap Hlit. unfold getParam, getParam_try. by rewrite Hmap, Hlit.
Qed.

Lemma getParam_literal_converted n h key second d v :
  ports_remapping (config_ n) !! key = Some second →
  second ≠ "=" → second ≠ EmptyString →
  isParseableString second = true →
  convertFromString second = Value v →
  getParam n h key d = ([], Returns (true, v)).
Proof.
  intros Hmap Hne Hs Hlit Hconv.
  rewrite (getParam_literal n h key second d Hmap);
    rewrite (remapped_verbatim key second Hne); [|done].
  destruct (substr_1_nonempty second Hs) as [w ->].
  cbn. by rewrite Hconv.
Qed.

(** A port that names a store key, on a node with a blackboard. *)
Lemma getParam_store n h key second a d :
  ports_remapping (config_ n) !! key = Some second →
  isParseableString (remapped key second) = false →
  bb_ n = Some a →
  getParam n h key d =
    getParam_catch key d
      (r ← read_entry (getAny (deref h a) (remapped key second)) d; mret ([], r)).
Proof.
  intros Hmap Hlit Hbb. unfold getParam, getParam_try. by rewrite Hmap, Hlit, Hbb.
Qed.

(** The guard of line 191. *)
Lemma getParam_null_blackboard n h key second d :
  ports_remapping (config_ n) !! key = Some second →
  isParseableString (remapped key second) = false →
  bb_ n = None →
  getParam n h key d =
    ([(Cerr, "getParam() trying to access a Blackboard (BB) entry, but BB is invalid")],
     Returns (false, d)).
Proof.
  intros Hmap Hlit Hbb. unfold getParam, getParam_try. by rewrite Hmap, Hlit, Hbb.
Qed.

(** [setOutput] has no such guard: line 239 goes through [bb_]. *)
Lemma setOutput_null_blackboard n h key second (value : T) :
  ports_remapping (config_ n) !! key = Some second →
  isParseableString (remapped key second) = false →
  bb_ n = None →
  setOutput n h key value = ([], NullDereference).
Proof.
  intros Hmap Hlit Hbb. unfold setOutput. by rewrite Hmap, Hlit, Hbb.
Qed.

Lemma setOutput_store n h key second a (value : T) :
  ports_remapping (config_ n) !! key = Some second →
  isParseableString (remapped key second) = false →
  bb_ n = Some a →
  setOutput n h key value =
    ([], Returns (true, <[a := <[remapped key second := make_any value]> (deref h a)]> h)).
Proof.
  intros Hmap Hlit Hbb. unfold setOutput. by rewrite Hmap, Hlit, Hbb.
Qed.

(** What the handler lets through: exactly the exceptions that are not
    [std::runtime_error]s. *)
Lemma getParam_catch_unwinds key d body o e :
  getParam_catch key d body = (o, Unwinds e) →
  body = Throw e ∧ is_runtime_error e = false.
Proof.
  unfold getParam_catch. destruct body as [[out r]|e']; [done|].
  destruct (is_runtime_error e') eqn:He; [done|].
  intros [= <- <-]. done.
Qed.

Lemma getParam_never_null_dereference n h key d o :
  getParam n h key d ≠ (o, NullDereference).
Proof.
  unfold getParam. destruct (ports_remapping (config_ n) !! key); [|done].
  unfold getParam_catch.
  destruct (getParam_try _ _ _ _) as [[out r]|e]; [done|].
  by destruct (is_runtime_error e).
Qed.

(** The flag and the destination: on [true] the destination was assigned
    a value that does not depend on what it held; on [false] it is left as
    it was; the printed lines and an unwinding do not depend on it. *)
Lemma read_entry_destination (val : option Any) d1 d2 :
  match read_entry val d1 with
  | Value (true, v) => read_entry val d2 = Value (true, v)
  | Value (false, v) => v = d1 ∧ read_entry val d2 = Value (false, d2)
  | Throw e => read_entry val d2 = Throw e
  end.
Proof.
  unfold read_entry. destruct val as [v|]; [|done].
  destruct (negb is_std_string && holds_string v).
  - destruct (cast_string v) as [s|e]; [|done]. cbn.
    by destruct (convertFromString s).
  - by destruct (cast v).
Qed.

Lemma getParam_destination n h key d1 d2 :
  match getParam n h key d1 with
  | (o, Returns (true, v)) => getParam n h key d2 = (o, Returns (true, v))
  | (o, Returns (false, v)) => v = d1 ∧ getParam n h key d2 = (o, Returns (false, d2))
  | (o, Unwinds e) => getParam n h key d2 = (o, Unwinds e)
  | (o, NullDereference) => False
  end.
Proof.
  unfold getParam. destruct (ports_remapping (config_ n) !! key) as [second|]; [|done].
  unfold getParam_try.
  destruct (isParseableString (remapped key second)).
  - destruct (substr _ _ _) as [w|e]; cbn.
    + destruct (convertFromString _) as [v|e]; cbn; [done|].
      by destruct (is_runtime_error e).
    + by destruct (is_runtime_error e).
  - destruct (bb_ n) as [a|]; cbn; [|done].
    pose proof (read_entry_destination (getAny (deref h a) (remapped key second)) d1 d2) as Hr.
    destruct (read_entry _ d1) as [[[] v]|e]; cbn.
    + by rewrite Hr.
    + destruct Hr as [-> ->]. done.
    + rewrite Hr. cbn. by destruct (is_runtime_error e).
Qed.
(** The three ends of a read through the blackboard. *)
Lemma getParam_store_not_found n h key second a d :
  ports_remapping (config_ n) !! key = Some second →
  isParseableString (remapped key second) = false →
  bb_ n = Some a →
  getAny (deref h a) (remapped key second) = None →
  getParam n h key d = ([], Returns (false, d)).
Proof.
  intros Hmap Hlit Hbb Hval.
  rewrite (getParam_store n h key second a d Hmap Hlit Hbb), Hval. done.
Qed.

Lemma getParam_store_cast n h key second a d v x :
  ports_remapping (config_ n) !! key = Some second →
  isParseableString (remapped key second) = false →
  bb_ n = Some a →
  getAny (deref h a) (remapped key second) = Some v →
  negb is_std_string && holds_string v = false →
  cast v = Value x →
  getParam n h key d = ([], Returns (true, x)).
Proof.
  intros Hmap Hlit Hbb Hval Htext Hcast.
  rewrite (getParam_store n h key second a d Hmap Hlit Hbb), Hval.
  unfold read_entry. rewrite Htext. cbn. rewrite Hcast. done.
Qed.

Lemma getParam_store_text n h key second a d v text x :
  ports_remapping (config_ n) !! key = Some second →
  isParseableString (remapped key second) = false →
  bb_ n = Some a →
  getAny (deref h a) (remapped key second) = Some v →
  negb is_std_string && holds_string v = true →
  cast_string v = Value text →
  convertFromString text = Value x →
  getParam n h key d = ([], Returns (true, x)).
Proof.
  intros Hmap Hlit Hbb Hval Htext Hcast Hconv.
  rewrite (getParam_store n h key second a d Hmap Hlit Hbb), Hval.
  unfold read_entry. rewrite Htext. cbn. rewrite Hcast. cbn. rewrite Hconv. done.
Qed.

(** A port key that is itself a literal, remapped to "=": the key is
    converted, whatever the heap holds, and cannot be written. *)
Lemma equal_sign_literal_key n h key d (value : T) :
  ports_remapping (config_ n) !! key = Some "=" →
  isParseableString key = true →
  getParam n h key d =
    getParam_catch key d
      (_ ← substr key 1 (size_t_sub (size key) 2);
       d' ← convertFromString key;
       mret ([], (true, d')))
  ∧ setOutput n h key value =
      ([(Cerr, "setOutput() failed because you are using a parseable string")],
       Returns (false, h)).
Proof.
  intros Hmap Hlit. pose proof (remapped_equal_sign key) as Hkey. split.
  - rewrite (getParam_literal n h key "=" d Hmap); rewrite Hkey; done.
  - unfold setOutput. rewrite Hmap. cbn zeta. by rewrite Hkey, Hlit.
Qed.

(** With collaborators that throw [std::runtime_error] only, [getParam]
    always returns; an empty literal aside, whose [substr] is out of range. *)
Lemma getParam_returns n h key d :
  (∀ s e, convertFromString s = Throw e → is_runtime_error e = true) →
  (∀ v e, cast v = Throw e → is_runtime_error e = true) →
  (∀ v e, cast_string v = Throw e → is_runtime_error e = true) →
  isParseableString EmptyString = false →
  ∃ o b d', getParam n h key d = (o, Returns (b, d')).
Proof.
  intros Hconv Hcast Hcs Hempty. unfold getParam.
  destruct (ports_remapping (config_ n) !! key) as [second|]; [|by eauto].
  cbn zeta. set (rk := remapped key second). unfold getParam_try.
  destruct (isParseableString rk) eqn:Hlit.
  - assert (rk ≠ EmptyString) as Hne by (intros Heq; congruence).
    destruct (substr_1_nonempty rk Hne) as [w ->]. cbn.
    destruct (convertFromString rk) as [v|e] eqn:Hc; cbn; [by eauto|].
    rewrite (Hconv _ _ Hc). by eauto.
  - destruct (bb_ n) as [a|]; cbn; [|by eauto].
    unfold read_entry. destruct (getAny (deref h a) rk) as [v|]; cbn; [|by eauto].
    destruct (negb is_std_string && holds_string v).
    + destruct (cast_string v) as [s|e] eqn:Hs; cbn.
      * destruct (convertFromString s) as [x|e] eqn:Hc; cbn; [by eauto|].
        rewrite (Hconv _ _ Hc). by eauto.
      * rewrite (Hcs _ _ Hs). by eauto.
    + destruct (cast v) as [x|e] eqn:Hc; cbn; [by eauto|].
      rewrite (Hcast _ _ Hc). by eauto.
Qed.

End PortResolutionFacts.


(** ** The claims about port resolution *)

Section PortResolutionClaims.
Context `{Collaborators} {T : Type} `{!PortType T}.
Implicit Types (n : TreeNode) (h : heap) (key second : string) (d : T).

(** C3, as amended: on a node that has a blackboard, for a port remapped to
    "=" whose key is not itself a bracket-delimited literal, [getParam]
    reads the blackboard entry named by the port key and [setOutput] writes
    the entry named by the port key. *)
Theorem equal_sign_uses_port_key n h key a d (value : T) :
  ports_remapping (config_ n) !! key = Some "=" →
  isParseableString key = false →
  bb_ n = Some a →
  getParam n h key d =
    getParam_catch key d (r ← read_entry (getAny (deref h a) key) d; mret ([], r))
  ∧ setOutput n h key value =
      ([], Returns (true, <[a := <[key := make_any value]> (deref h a)]> h)).
Proof.
  intros Hmap Hlit Hbb.
  pose proof (remapped_equal_sign key) as Hkey.
  assert (isParseableString (remapped key "=") = false) as Hlit'
    by (by rewrite Hkey).
  split.
  - rewrite (getParam_store n h key "=" a d Hmap Hlit' Hbb). by rewrite Hkey.
  - rewrite (setOutput_store n h key "=" a value Hmap Hlit' Hbb). by rewrite Hkey.
Qed.

(** C4: a key that is not in the port-remapping table makes [getParam] and
    [setOutput] return false, with the diagnostic of the unmapped port,
    whatever the heap holds and whether or not the node has a blackboard;
    the destination is left as it was and nothing is written. *)
Theorem unmapped_port_fails n h key d (value : T) :
  ports_remapping (config_ n) !! key = None →
  getParam n h key d =
    ([(Cerr, "getParam() will fail unless you correctly set remapping in NodeConfiguration")],
     Returns (false, d))
  ∧ setOutput n h key value =
    ([(Cerr, "setOutput() will fail unless you correctly set remapping in NodeConfiguration")],
     Returns (false, h)).
Proof.
  intros Hmap. unfold getParam, setOutput. rewrite Hmap. done.
Qed.

(** C5: [setOutput] on a port whose remap expression is a bracket-delimited
    literal returns false with the read-only diagnostic and leaves the heap
    as it was, for every value, heap and blackboard pointer. *)
Theorem setOutput_literal_read_only n h key second (value : T) :
  ports_remapping (config_ n) !! key = Some second →
  second ≠ "=" →
  isParseableString second = true →
  setOutput n h key value =
    ([(Cerr, "setOutput() failed because you are using a parseable string")],
     Returns (false, h)).
Proof.
  intros Hmap Hne Hlit. unfold setOutput.
  rewrite Hmap. cbn zeta. rewrite (remapped_verbatim key second Hne), Hlit. done.
Qed.

End PortResolutionClaims.

(** ** The optional-returning overload *)

Section OptionalOverload.
Context `{Collaborators} {T : Type} `{!PortType T} `{!ConstructibleFromNullopt T}.
Implicit Types (n : TreeNode) (h : heap) (key : string).

(** Where line 127 compiles, the optional it returns is engaged on both
    branches. *)
Lemma getParam_optional_never_empty n h key o :
  getParam_optional n h key ≠ (o, Returns None).
Proof.
  unfold getParam_optional.
  by destruct (getParam n h key default_constructed) as [o1 [[[] v1]|e1|]].
Qed.

Lemma getParam_optional_on_false n h key o d' :
  getParam n h key default_constructed = (o, Returns (false, d')) →
  getParam_optional n h key = (o, Returns (Some from_nullopt)).
Proof. intros Hget. unfold getParam_optional. by rewrite Hget. Qed.

Lemma getParam_optional_on_true n h key o v :
  getParam n h key default_constructed = (o, Returns (true, v)) →
  getParam_optional n h key = (o, Returns (Some v)).
Proof. intros Hget. unfold getParam_optional. by rewrite Hget. Qed.
End OptionalOverload.

(** ** Port resolution at concrete inputs *)

Section ConcretePorts.
Import Concrete.

(** C1: a port remapped to the bracket literal of 5.  Line 186 computes the
    inner text and drops it; line 187 converts the whole remapped key.  With
    [T = std::string] the value returned still has its delimiters; with
    [T = int] the conversion of the delimited text fails and [getParam]
    returns false, where the inner text converts to 5. *)
Theorem getParam_literal_keeps_delimiters :
  let n := node (Some 0%nat) [("p", "[5]")] in
  let h := one_store [] in
  isParseableString "[5]" = true
  ∧ substr "[5]" 1 (size_t_sub (size "[5]") 2) = Value "5"
  ∧ getParam (T:=string) n h "p" "" = ([], Returns (true, "[5]"))
  ∧ convertFromString (T:=Z) "5" = Value 5
  ∧ getParam (T:=Z) n h "p" 0 =
      ([(Cout, "Exception at getParam(p): convertFromString<int>: malformed text")],
       Returns (false, 0)).
Proof. cbv zeta. repeat split; vm_compute; reflexivity. Qed.

(** C2: a node without a blackboard and a port that names a store key.
    [getParam] meets the guard of line 191 and returns false; [setOutput]
    has no guard and no handler, and line 239 goes through the null [bb_]. *)
Theorem setOutput_without_blackboard :
  let n := node None [("out", "out1")] in
  bb_ n = None
  ∧ getParam (T:=Z) n ∅ "out" 0 =
      ([(Cerr, "getParam() trying to access a Blackboard (BB) entry, but BB is invalid")],
       Returns (false, 0))
  ∧ setOutput (T:=Z) n ∅ "out" 42 = ([], NullDereference).
Proof. cbv zeta. repeat split; vm_compute; reflexivity. Qed.

(** C3, as stated, fails: the port key "[x]" is remapped to "=" and the
    blackboard has an entry named "[x]" holding "hello".  The key is taken
    for a literal: [getParam] returns the key's own text, not the entry, and
    [setOutput] refuses to write. *)
Lemma equal_sign_bracketed_key_counterexample :
  let n := node (Some 0%nat) [("[x]", "=")] in
  let h := one_store [("[x]", any_string "hello")] in
  ports_remapping (config_ n) !! "[x]" = Some "="
  ∧ getAny (deref h 0%nat) "[x]" = Some (any_string "hello")
  ∧ getParam (T:=string) n h "[x]" "" = ([], Returns (true, "[x]"))
  ∧ getParam (T:=string) n h "[x]" "" ≠
      getParam_catch "[x]" ""
        (r ← read_entry (getAny (deref h 0%nat) "[x]") ""; mret ([], r))
  ∧ setOutput (T:=string) n h "[x]" "bye" =
      ([(Cerr, "setOutput() failed because you are using a parseable string")],
       Returns (false, h)).
Proof.
  cbv zeta. repeat split; try (vm_compute; reflexivity).
  vm_compute. discriminate.
Qed.

Lemma equal_sign_uses_port_key_witness :
  let n := node (Some 0%nat) [("speed", "=")] in
  let h := one_store [("speed", any_int 7)] in
  ports_remapping (config_ n) !! "speed" = Some "="
  ∧ isParseableString "speed" = false
  ∧ bb_ n = Some 0%nat
  ∧ getParam (T:=Z) n h "speed" 0 =
      getParam_catch "speed" 0
        (r ← read_entry (getAny (deref h 0%nat) "speed") 0; mret ([], r))
  ∧ setOutput (T:=Z) n h "speed" 9 =
      ([], Returns (true, <[0%nat := <["speed" := make_any 9]> (deref h 0%nat)]> h)).
Proof.
  cbv zeta.
  assert (ports_remapping (config_ (node (Some 0%nat) [("speed", "=")])) !! "speed"
          = Some "=") as Hmap by (vm_compute; reflexivity).
  assert (isParseableString "speed" = false) as Hlit by (vm_compute; reflexivity).
  exact (conj Hmap (conj Hlit (conj eq_refl
    (equal_sign_uses_port_key (T:=Z) _ (one_store [("speed", any_int 7)]) "speed"
       0%nat 0 9 Hmap Hlit eq_refl)))).
Defined.

Lemma unmapped_port_fails_witness :
  let n := node (Some 0%nat) [("speed", "=")] in
  let h := one_store [("angle", any_int 7)] in
  ports_remapping (config_ n) !! "angle" = None
  ∧ getParam (T:=Z) n h "angle" 0 =
      ([(Cerr, "getParam() will fail unless you correctly set remapping in NodeConfiguration")],
       Returns (false, 0))
  ∧ setOutput (T:=Z) n h "angle" 3 =
      ([(Cerr, "setOutput() will fail unless you correctly set remapping in NodeConfiguration")],
       Returns (false, h)).
Proof.
  cbv zeta.
  assert (ports_remapping (config_ (node (Some 0%nat) [("speed", "=")])) !! "angle"
          = None) as Hmap by (vm_compute; reflexivity).
  exact (conj Hmap
    (unmapped_port_fails (T:=Z) _ (one_store [("angle", any_int 7)]) "angle" 0 3 Hmap)).
Defined.

Lemma setOutput_literal_read_only_witness :
  let n := node (Some 0%nat) [("p", "[5]")] in
  let h := one_store [("p", any_int 7)] in
  ports_remapping (config_ n) !! "p" = Some "[5]"
  ∧ "[5]" ≠ "="
  ∧ isParseableString "[5]" = true
  ∧ setOutput (T:=Z) n h "p" 42 =
      ([(Cerr, "setOutput() failed because you are using a parseable string")],
       Returns (false, h)).
Proof.
  cbv zeta.
  assert (ports_remapping (config_ (node (Some 0%nat) [("p", "[5]")])) !! "p"
          = Some "[5]") as Hmap by (vm_compute; reflexivity).
  assert ("[5]" ≠ "=") as Hne by discriminate.
  assert (isParseableString "[5]" = true) as Hlit by (vm_compute; reflexivity).
  exact (conj Hmap (conj Hne (conj Hlit
    (setOutput_literal_read_only (T:=Z) _ (one_store [("p", any_int 7)]) "p" "[5]" 42
       Hmap Hne Hlit)))).
Defined.

(** Two nodes that share the blackboard at address 0: what one writes
    through its port the other reads through its own. *)
Example shared_blackboard_round_trip :
  let writer := node (Some 0%nat) [("result", "out1")] in
  let reader := node (Some 0%nat) [("input", "out1")] in
  let h' := one_store [("out1", any_int 42)] in
  setOutput (T:=Z) writer (one_store []) "result" 42 = ([], Returns (true, h'))
  ∧ getParam (T:=Z) writer h' "result" 0 = ([], Returns (true, 42))
  ∧ getParam (T:=Z) reader h' "input" 0 = ([], Returns (true, 42)).
Proof. cbv zeta. repeat split; vm_compute; reflexivity. Qed.

End ConcretePorts.


(** ** Identity *)

Lemma getUID_inv counter uid counter' :
  getUID counter = Some (uid, counter') →
  uid = counter ∧ counter' = counter + 1 ∧ 0 <= counter <= uint16_max.
Proof.
  unfold getUID. destruct (decide (0 <= counter <= uint16_max)); [|done].
  intros [= <- <-]. done.
Qed.

Lemma TreeNode_new_inv counter name cfg counter' n :
  TreeNode_new counter name cfg = Some (counter', n) →
  UID n = counter ∧ counter' = counter + 1 ∧ 0 <= counter <= uint16_max
  ∧ config n = cfg ∧ status n = IDLE.
Proof.
  unfold TreeNode_new. destruct (getUID counter) as [[uid c]|] eqn:Hu; [|done].
  apply getUID_inv in Hu as (-> & -> & Hr). intros [= <- <-]. done.
Qed.

(** The ids handed out are the consecutive counter values. *)
Lemma construct_all_ids requests : ∀ counter counter' nodes,
  construct_all counter requests = Some (counter', nodes) →
  length nodes = length requests
  ∧ counter' = counter + Z.of_nat (length requests)
  ∧ Forall (fun n => counter <= UID n < counter') nodes
  ∧ NoDup (map UID nodes).
Proof.
  induction requests as [|[name cfg] rest IH]; intros counter counter' nodes; cbn.
  - intros [= <- <-]. cbn. repeat split; [lia | constructor | constructor].
  - destruct (TreeNode_new counter name cfg) as [[c1 n]|] eqn:Hnew; [|done].
    destruct (construct_all c1 rest) as [[c2 ns]|] eqn:Hrest; [|done].
    intros [= <- <-].
    apply TreeNode_new_inv in Hnew as (Hid & -> & Hr & _).
    destruct (IH _ _ _ Hrest) as (Hlen & -> & Hall & Hnd).
    cbn. repeat split.
    + by rewrite Hlen.
    + lia.
    + constructor; [lia|].
      eapply Forall_impl; [exact Hall|]. cbn. intros; lia.
    + apply NoDup_cons. split; [|done].
      intros Hin. apply list_elem_of_fmap in Hin as (m & Hm & Hin).
      rewrite Forall_forall in Hall. specialize (Hall m Hin). lia.
Qed.

(** [uid_] is a [uint16_t]: no more nodes than it has values. *)
Lemma construct_all_capacity requests counter counter' nodes :
  construct_all counter requests = Some (counter', nodes) →
  Forall (fun n => 0 <= UID n <= uint16_max) nodes.
Proof.
  revert counter counter' nodes.
  induction requests as [|[name cfg] rest IH]; intros counter counter' nodes; cbn.
  - intros [= <- <-]. constructor.
  - destruct (TreeNode_new counter name cfg) as [[c1 n]|] eqn:Hnew; [|done].
    destruct (construct_all c1 rest) as [[c2 ns]|] eqn:Hrest; [|done].
    intros [= <- <-].
    apply TreeNode_new_inv in Hnew as (Hid & -> & Hr & _).
    constructor; [lia | eauto].
Qed.

Lemma construct_all_bounds requests : ∀ counter counter' nodes,
  construct_all counter requests = Some (counter', nodes) →
  requests ≠ [] →
  0 <= counter ∧ counter' <= uint16_max + 1.
Proof.
  induction requests as [|[name cfg] rest IH]; intros counter counter' nodes; cbn; [done|].
  destruct (TreeNode_new counter name cfg) as [[c1 n]|] eqn:Hnew; [|done].
  destruct (construct_all c1 rest) as [[c2 ns]|] eqn:Hrest; [|done].
  intros [= <- <-] _.
  apply TreeNode_new_inv in Hnew as (_ & -> & Hr & _).
  destruct rest as [|r rest'].
  - cbn in Hrest. injection Hrest as <- <-. lia.
  - destruct (IH _ _ _ Hrest) as [? ?]; [done|lia].
Qed.

(** [uid_] has 65536 values: a process constructs at most that many nodes. *)
Lemma construct_all_at_most requests counter counter' nodes :
  construct_all counter requests = Some (counter', nodes) →
  Z.of_nat (length nodes) <= uint16_max + 1.
Proof.
  intros Hc. destruct (construct_all_ids _ _ _ _ Hc) as (Hlen & Hcnt & _).
  destruct requests as [|r rest].
  - cbn in Hlen. rewrite Hlen. unfold uint16_max. lia.
  - destruct (construct_all_bounds _ _ _ _ Hc) as [? ?]; [done|].
    rewrite Hlen. lia.
Qed.

(** C6: the nodes constructed in a process, in whatever order their
    constructions draw from the counter, have pairwise distinct [UID()]s
    (and there are as many nodes as constructions). *)
Theorem UID_pairwise_distinct counter requests counter' nodes :
  construct_all counter requests = Some (counter', nodes) →
  length nodes = length requests
  ∧ ∀ i j ni nj,
      nodes !! i = Some ni → nodes !! j = Some nj → i ≠ j → UID ni ≠ UID nj.
Proof.
  intros Hc. destruct (construct_all_ids _ _ _ _ Hc) as (Hlen & _ & _ & Hnd).
  split; [done|].
  intros i j ni nj Hi Hj Hij Heq. apply Hij.
  eapply (proj1 (NoDup_alt (map UID nodes)) Hnd i j (UID ni)).
  - by rewrite list_lookup_fmap, Hi.
  - by rewrite list_lookup_fmap, Hj, Heq.
Qed.

Lemma UID_pairwise_distinct_witness :
  let cfg := Concrete.configuration None [] in
  let requests := [("a", cfg); ("b", cfg); ("c", cfg)] in
  ∃ nodes,
    construct_all 1 requests = Some (4, nodes)
    ∧ map UID nodes = [1; 2; 3]
    ∧ length nodes = length requests
    ∧ ∀ i j ni nj,
        nodes !! i = Some ni → nodes !! j = Some nj → i ≠ j → UID ni ≠ UID nj.
Proof.
  cbv zeta. eexists. split; [vm_compute; reflexivity|].
  split; [reflexivity|].
  eapply (UID_pairwise_distinct 1 _ 4). vm_compute. reflexivity.
Defined.

Example construct_all_exhausted :
  let cfg := Concrete.configuration None [] in
  construct_all uint16_max [("a", cfg)] = Some (uint16_max + 1, [
    {| name_ := "a"; status_ := IDLE; state_change_signal_ := []; uid_ := uint16_max;
       config_ := cfg; bb_ := None |}])
  ∧ construct_all uint16_max [("a", cfg); ("b", cfg)] = None.
Proof. split; vm_compute; reflexivity. Qed.

(** ** Status and notification *)

Lemma callbacks_invoked_app evs1 evs2 :
  callbacks_invoked (evs1 ++ evs2) = (callbacks_invoked evs1 ++ callbacks_invoked evs2)%list.
Proof.
  induction evs1 as [|[cb u p s|] evs1 IH]; cbn; [done| |done].
  by rewrite IH.
Qed.

Lemma wake_ups_app evs1 evs2 :
  wake_ups (evs1 ++ evs2) = (wake_ups evs1 + wake_ups evs2)%nat.
Proof.
  induction evs1 as [|[cb u p s|] evs1 IH]; cbn; [done|done|].
  by rewrite IH.
Qed.

Lemma callbacks_invoked_map uid prev_status new_status (subs : list StatusChangeCallback) :
  callbacks_invoked (map (fun cb => CallbackInvoked cb uid prev_status new_status) subs)
  = map (fun cb => (cb, prev_status, new_status)) subs.
Proof. induction subs as [|cb subs IH]; cbn; [done|]. by rewrite IH. Qed.

Lemma wake_ups_map uid prev_status new_status (subs : list StatusChangeCallback) :
  wake_ups (map (fun cb => CallbackInvoked cb uid prev_status new_status) subs) = 0%nat.
Proof. induction subs as [|cb subs IH]; cbn; done. Qed.

(** C7: [setStatus] with the current status leaves the node as it is, calls
    no callback and wakes nobody; with a different status it stores the new
    status, calls every subscribed callback once, in subscription order,
    with the previous and the new status, and wakes the waiting threads
    once. *)
Theorem setStatus_fires_on_change_only (n : TreeNode) (new_status : NodeStatus) :
  (new_status = status n →
     (setStatus n new_status).1 = n
     ∧ callbacks_invoked (setStatus n new_status).2 = []
     ∧ wake_ups (setStatus n new_status).2 = 0%nat)
  ∧ (new_status ≠ status n →
     status (setStatus n new_status).1 = new_status
     ∧ callbacks_invoked (setStatus n new_status).2
       = map (fun cb => (cb, status n, new_status)) (state_change_signal_ n)
     ∧ wake_ups (setStatus n new_status).2 = 1%nat).
Proof.
  unfold setStatus, status. split; intros Hs.
  - rewrite decide_True by done. done.
  - rewrite decide_False by done. cbn [fst snd with_status status_].
    rewrite callbacks_invoked_app, wake_ups_app, callbacks_invoked_map, wake_ups_map.
    cbn. by rewrite app_nil_r.
Qed.

Lemma setStatus_fires_on_change_only_witness :
  let n := subscribeToStatusChange (subscribeToStatusChange (Concrete.node None []) 10%nat) 20%nat in
  ((setStatus n IDLE).1 = n
   ∧ callbacks_invoked (setStatus n IDLE).2 = []
   ∧ wake_ups (setStatus n IDLE).2 = 0%nat)
  ∧ (status (setStatus n RUNNING).1 = RUNNING
     ∧ callbacks_invoked (setStatus n RUNNING).2
       = map (fun cb => (cb, status n, RUNNING)) (state_change_signal_ n)
     ∧ wake_ups (setStatus n RUNNING).2 = 1%nat).
Proof.
  cbv zeta. split.
  - apply (proj1 (setStatus_fires_on_change_only _ IDLE)). reflexivity.
  - apply (proj2 (setStatus_fires_on_change_only _ RUNNING)). discriminate.
Defined.

Example setStatus_running_events :
  let n := subscribeToStatusChange (subscribeToStatusChange (Concrete.node None []) 10%nat) 20%nat in
  (setStatus n RUNNING).2
  = [CallbackInvoked 10%nat 1 IDLE RUNNING; CallbackInvoked 20%nat 1 IDLE RUNNING; NotifyAll].
Proof. reflexivity. Qed.



(** * Further properties of port resolution *)

(** ** Blackboards in the heap *)

Section HeapFacts.
Context `{Collaborators}.
Implicit Types (h : heap) (a : address) (bb : Blackboard).

Lemma deref_insert_eq h a bb : deref (<[a := bb]> h) a = bb.
Proof. unfold deref, heap, Blackboard in *. by rewrite lookup_insert_eq. Qed.

Lemma deref_insert_ne h a a' bb : a ≠ a' → deref (<[a := bb]> h) a' = deref h a'.
Proof. intros Hne. unfold deref, heap, Blackboard in *. by rewrite lookup_insert_ne. Qed.

(** The entry a write leaves, and the entries it leaves alone. *)
Lemma getAny_written h a k (v : Any) :
  getAny (deref (<[a := <[k := v]> (deref h a)]> h) a) k = Some v.
Proof.
  rewrite deref_insert_eq. unfold getAny, Blackboard in *. by rewrite lookup_insert_eq.
Qed.

Lemma getAny_not_written h a k (v : Any) a' k' :
  a' ≠ a ∨ k' ≠ k →
  getAny (deref (<[a := <[k := v]> (deref h a)]> h) a') k' = getAny (deref h a') k'.
Proof.
  intros Hne. destruct (decide (a = a')) as [<-|Ha].
  - rewrite deref_insert_eq. unfold getAny, Blackboard in *.
    destruct Hne as [Hne|Hne]; [done|]. by rewrite lookup_insert_ne.
  - by rewrite deref_insert_ne.
Qed.
End HeapFacts.

(** ** What [setOutput] does to the heap *)

Section SetOutputFacts.
Context `{Collaborators} {T : Type} `{!PortType T}.
Implicit Types (n : TreeNode) (h : heap) (key second : string) (value : T).

(** The only way to [true]. *)
Lemma setOutput_true_inv n h key value o h' :
  setOutput n h key value = (o, Returns (true, h')) →
  ∃ second a,
    ports_remapping (config_ n) !! key = Some second
    ∧ isParseableString (remapped key second) = false
    ∧ bb_ n = Some a
    ∧ o = []
    ∧ h' = <[a := <[remapped key second := make_any value]> (deref h a)]> h.
Proof.
  unfold setOutput.
  destruct (ports_remapping (config_ n) !! key) as [second|]; [|done].
  cbn zeta. destruct (isParseableString (remapped key second)) eqn:Hlit; [done|].
  destruct (bb_ n) as [a|]; [|done].
  intros [= <- <-]. by exists second, a.
Qed.

(** How a returning [setOutput] leaves the heap. *)
Lemma setOutput_returns_inv n h key value o b h' :
  setOutput n h key value = (o, Returns (b, h')) →
  (b = false ∧ h' = h)
  ∨ (b = true ∧ ∃ second a,
       ports_remapping (config_ n) !! key = Some second
       ∧ bb_ n = Some a
       ∧ h' = <[a := <[remapped key second := make_any value]> (deref h a)]> h).
Proof.
  destruct b; intros Hset.
  - right. split; [done|].
    apply setOutput_true_inv in Hset as (second & a & ? & ? & ? & ? & ?). eauto.
  - left. split; [done|]. revert Hset. unfold setOutput.
    destruct (ports_remapping (config_ n) !! key) as [second|]; [|by intros [= <- <-]].
    cbn zeta. destruct (isParseableString (remapped key second)); [by intros [= <- <-]|].
    by destruct (bb_ n).
Qed.

(** X5: whenever [setOutput] returns false, the heap it leaves is the heap
    it was given: no refused write reaches a blackboard. *)
Theorem setOutput_false_writes_nothing n h key value o h' :
  setOutput n h key value = (o, Returns (false, h')) →
  h' = h.
Proof.
  unfold setOutput.
  destruct (ports_remapping (config_ n) !! key) as [second|]; [|by intros [= <- <-]].
  cbn zeta. destruct (isParseableString (remapped key second)); [by intros [= <- <-]|].
  by destruct (bb_ n).
Qed.

(** X4: a [setOutput] that returns true prints nothing, stores the value's
    entry under the remapped key in the node's blackboard, and leaves every
    other entry of every blackboard as it was. *)
Theorem setOutput_true_writes_one_entry n h key value o h' :
  setOutput n h key value = (o, Returns (true, h')) →
  ∃ second a,
    ports_remapping (config_ n) !! key = Some second
    ∧ bb_ n = Some a
    ∧ o = []
    ∧ getAny (deref h' a) (remapped key second) = Some (make_any value)
    ∧ ∀ a' k', a' ≠ a ∨ k' ≠ remapped key second →
        getAny (deref h' a') k' = getAny (deref h a') k'.
Proof.
  intros Hset.
  apply setOutput_true_inv in Hset as (second & a & Hmap & _ & Hbb & -> & ->).
  exists second, a. repeat split; try done.
  - apply getAny_written.
  - intros a' k' Hne. by apply getAny_not_written.
Qed.

End SetOutputFacts.

(** ** A write followed by a read, through one node or two *)

Section WriteThenRead.
Context `{Collaborators} {W R : Type} `{!PortType W} `{!PortType R}.
Implicit Types (n : TreeNode) (h : heap) (key second : string).

(** The reader's port resolves to the entry the writer's port stored. *)
Lemma getParam_after_setOutput n1 n2 h key1 key2 s1 s2 (v : W) (d : R) o h' :
  setOutput n1 h key1 v = (o, Returns (true, h')) →
  ports_remapping (config_ n1) !! key1 = Some s1 →
  ports_remapping (config_ n2) !! key2 = Some s2 →
  remapped key2 s2 = remapped key1 s1 →
  bb_ n2 = bb_ n1 →
  getParam n2 h' key2 d =
    getParam_catch key2 d (r ← read_entry (Some (make_any v)) d; mret ([], r)).
Proof.
  intros Hset Hm1 Hm2 Hkeys Hbb.
  apply setOutput_true_inv in Hset as (s1' & a & Hm1' & Hlit & Hbb1 & -> & ->).
  assert (s1' = s1) as -> by congruence.
  rewrite Hbb1 in Hbb. rewrite <- Hkeys in Hlit.
  rewrite (getParam_store n2 _ key2 s2 a d Hm2 Hlit Hbb).
  by rewrite Hkeys, getAny_written.
Qed.

(** X2: text written through one port type is converted when it is read
    through another.  If the entry [setOutput] stores holds a string and the
    reader's type is not [std::string], a later [getParam] on a port that
    resolves to the same entry returns what [convertFromString] makes of
    that text. *)
Theorem text_written_is_converted_on_read n1 n2 h key1 key2 s1 s2 (v : W) (d x : R)
    text o h' :
  setOutput n1 h key1 v = (o, Returns (true, h')) →
  ports_remapping (config_ n1) !! key1 = Some s1 →
  ports_remapping (config_ n2) !! key2 = Some s2 →
  remapped key2 s2 = remapped key1 s1 →
  bb_ n2 = bb_ n1 →
  is_std_string (T:=R) = false →
  holds_string (make_any v) = true →
  cast_string (make_any v) = Value text →
  convertFromString text = Value x →
  getParam n2 h' key2 d = ([], Returns (true, x)).
Proof.
  intros Hset Hm1 Hm2 Hkeys Hbb Hstd Hholds Hcast Hconv.
  rewrite (getParam_after_setOutput _ _ _ _ _ _ _ _ _ _ _ Hset Hm1 Hm2 Hkeys Hbb).
  unfold read_entry. rewrite Hstd, Hholds. cbn. rewrite Hcast. cbn. by rewrite Hconv.
Qed.

(** X3: a [setOutput] does not disturb the ports that resolve elsewhere.
    If the reader's node has another blackboard, or its port resolves to
    another key, [getParam] gives the same result after the write as
    before it. *)
Theorem setOutput_frame n1 n2 h key1 key2 s1 s2 (v : W) (d : R) o b h' :
  setOutput n1 h key1 v = (o, Returns (b, h')) →
  ports_remapping (config_ n1) !! key1 = Some s1 →
  ports_remapping (config_ n2) !! key2 = Some s2 →
  bb_ n2 ≠ bb_ n1 ∨ remapped key2 s2 ≠ remapped key1 s1 →
  getParam n2 h' key2 d = getParam n2 h key2 d.
Proof.
  intros Hset Hm1 Hm2 Hne.
  apply setOutput_returns_inv in Hset as [[_ ->]|[_ (s1' & a & Hm1' & Hbb1 & ->)]]; [done|].
  assert (s1' = s1) as -> by congruence.
  unfold getParam. rewrite Hm2. cbn zeta. f_equal. unfold getParam_try.
  destruct (isParseableString (remapped key2 s2)); [done|].
  destruct (bb_ n2) as [a2|] eqn:Hbb2; [|done].
  rewrite getAny_not_written; [done|].
  destruct Hne as [Hne|Hne]; [left|by right].
  intros ->. apply Hne. by rewrite Hbb1.
Qed.

End WriteThenRead.

(** ** Reads *)

Section GetParamFacts.
Context `{Collaborators} {T : Type} `{!PortType T}.
Implicit Types (n : TreeNode) (h : heap) (key second : string) (d : T).


(** X6: a [getParam] that returns false has not touched its destination. *)
Theorem getParam_false_keeps_destination n h key d o d' :
  getParam n h key d = (o, Returns (false, d')) →
  d' = d.
Proof.
  intros Hget. pose proof (getParam_destination n h key d d) as Hd.
  rewrite Hget in Hd. by destruct Hd.
Qed.

(** X7: a literal port never looks at the store.  Two nodes that remap the
    key to the same literal get the same [getParam] result whatever their
    blackboard pointers (null included) and whatever the heaps hold. *)
Theorem getParam_literal_ignores_store n1 n2 h1 h2 key second d :
  ports_remapping (config_ n1) !! key = Some second →
  ports_remapping (config_ n2) !! key = Some second →
  isParseableString (remapped key second) = true →
  getParam n1 h1 key d = getParam n2 h2 key d.
Proof.
  intros Hm1 Hm2 Hlit.
  by rewrite (getParam_literal n1 h1 key second d Hm1 Hlit),
             (getParam_literal n2 h2 key second d Hm2 Hlit).
Qed.

(** X8: remapping a port to "=" is the same as remapping it to its own
    name: on nodes with the same blackboard pointer, [getParam] and
    [setOutput] give equal results on every heap. *)
Theorem equal_sign_same_as_own_name n1 n2 h key d (value : T) :
  ports_remapping (config_ n1) !! key = Some "=" →
  ports_remapping (config_ n2) !! key = Some key →
  bb_ n1 = bb_ n2 →
  getParam n1 h key d = getParam n2 h key d
  ∧ setOutput n1 h key value = setOutput n2 h key value.
Proof.
  intros Hm1 Hm2 Hbb.
  assert (remapped key key = key) as Hown
    by (unfold remapped; by destruct (decide (key = "="))).
  unfold getParam, setOutput. rewrite Hm1, Hm2. cbn zeta.
  by rewrite remapped_equal_sign, Hown, Hbb.
Qed.

(** X9: [getParam] fails without a diagnostic in one case only: the port
    is mapped, its remapped key is not a literal, the node has a blackboard,
    and the blackboard has no entry under that key. *)
Theorem getParam_silent_failure n h key d :
  getParam n h key d = ([], Returns (false, d))
  ↔ ∃ second a,
      ports_remapping (config_ n) !! key = Some second
      ∧ isParseableString (remapped key second) = false
      ∧ bb_ n = Some a
      ∧ getAny (deref h a) (remapped key second) = None.
Proof.
  split.
  - unfold getParam.
    destruct (ports_remapping (config_ n) !! key) as [second|] eqn:Hmap; [|done].
    cbn zeta. unfold getParam_try.
    destruct (isParseableString (remapped key second)) eqn:Hlit.
    + destruct (substr _ _ _) as [w|e]; cbn.
      * destruct (convertFromString _) as [v|e]; cbn; [done|].
        by destruct (is_runtime_error e).
      * by destruct (is_runtime_error e).
    + destruct (bb_ n) as [a|] eqn:Hbb; cbn; [|done].
      destruct (getAny (deref h a) (remapped key second)) as [v|] eqn:Hval;
        [|by eauto 10].
      unfold read_entry.
      destruct (negb is_std_string && holds_string v).
      * destruct (cast_string v) as [s|e]; cbn.
        -- destruct (convertFromString s) as [x|e]; cbn; [done|].
           by destruct (is_runtime_error e).
        -- by destruct (is_runtime_error e).
      * destruct (cast v) as [x|e]; cbn; [done|]. by destruct (is_runtime_error e).
  - intros (second & a & Hmap & Hlit & Hbb & Hval).
    by eapply getParam_store_not_found.
Qed.

(** X10: if the collaborators throw [std::runtime_error]s only and the
    empty text is not a literal, [getParam] returns on every input: no
    exception leaves it. *)
Theorem getParam_always_returns n h key d :
  (∀ s e, convertFromString s = Throw e → is_runtime_error e = true) →
  (∀ v e, cast v = Throw e → is_runtime_error e = true) →
  (∀ v e, cast_string v = Throw e → is_runtime_error e = true) →
  isParseableString EmptyString = false →
  ∃ o b d', getParam n h key d = (o, Returns (b, d')).
Proof. apply getParam_returns. Qed.

(** X11: an exception that leaves [getParam] is never a
    [std::runtime_error], and nothing was printed on the way. *)
Theorem getParam_unwinds_only_other_exceptions n h key d o e :
  getParam n h key d = (o, Unwinds e) →
  is_runtime_error e = false ∧ o = [].
Proof.
  unfold getParam.
  destruct (ports_remapping (config_ n) !! key) as [second|]; [|done].
  cbn zeta. unfold getParam_catch.
  destruct (getParam_try _ _ _ _) as [[out r]|e']; [done|].
  destruct (is_runtime_error e') eqn:He; [done|].
  by intros [= <- <-].
Qed.

(** X12: a stored text that does not convert.  When the entry holds a
    string, the type asked for is not [std::string] and [convertFromString]
    throws, [getParam] returns false with the exception's message on
    [std::cout] and the destination untouched if the exception is a
    [std::runtime_error]; any other exception leaves [getParam]. *)
Theorem getParam_stored_text_conversion_failure n h key second a d v text e :
  ports_remapping (config_ n) !! key = Some second →
  isParseableString (remapped key second) = false →
  bb_ n = Some a →
  getAny (deref h a) (remapped key second) = Some v →
  negb is_std_string && holds_string v = true →
  cast_string v = Value text →
  convertFromString text = Throw e →
  getParam n h key d =
    if is_runtime_error e
    then ([(Cout, "Exception at getParam(" +:+ key +:+ "): " +:+ what e)],
          Returns (false, d))
    else ([], Unwinds e).
Proof.
  intros Hmap Hlit Hbb Hval Htext Hcast Hconv.
  rewrite (getParam_store n h key second a d Hmap Hlit Hbb), Hval.
  unfold read_entry. rewrite Htext. cbn. rewrite Hcast. cbn. by rewrite Hconv.
Qed.
End GetParamFacts.

Section Locality.
Context `{Collaborators} {T : Type} `{!PortType T}.
Implicit Types (n : TreeNode) (h : heap) (key second : string) (d : T).

(** X13: [getParam] depends on the heap through one entry only, the one
    under the remapped key in the node's blackboard: on two heaps that agree
    on that entry it gives the same result. *)
Theorem getParam_depends_on_one_entry n h1 h2 key d :
  (∀ second a,
     ports_remapping (config_ n) !! key = Some second →
     bb_ n = Some a →
     getAny (deref h1 a) (remapped key second) = getAny (deref h2 a) (remapped key second)) →
  getParam n h1 key d = getParam n h2 key d.
Proof.
  intros Hagree. unfold getParam.
  destruct (ports_remapping (config_ n) !! key) as [second|] eqn:Hmap; [|done].
  cbn zeta. f_equal. unfold getParam_try.
  destruct (isParseableString (remapped key second)); [done|].
  destruct (bb_ n) as [a|] eqn:Hbb; [|done].
  by rewrite (Hagree second a).
Qed.

(** X14: whether a port can be written is decided by the node alone.  If
    [setOutput] returns for one heap and one value, it returns the same flag
    with the same diagnostics for every heap and every value: the entry a
    write replaces is never looked at. *)
Theorem setOutput_flag_independent n h1 h2 key (v1 v2 : T) o b h1' :
  setOutput n h1 key v1 = (o, Returns (b, h1')) →
  ∃ h2', setOutput n h2 key v2 = (o, Returns (b, h2')).
Proof.
  unfold setOutput.
  destruct (ports_remapping (config_ n) !! key) as [second|];
    [|intros [= <- <- <-]; by eauto].
  cbn zeta. destruct (isParseableString (remapped key second));
    [intros [= <- <- <-]; by eauto|].
  destruct (bb_ n) as [a|]; [|done].
  intros [= <- <- <-]. by eauto.
Qed.
End Locality.

(** ** The further properties at concrete inputs *)

Section ConcreteExtras.
Import Concrete.

Lemma convertFromString_int_throws s e :
  convertFromString_int s = Throw e → is_runtime_error e = true.
Proof.
  unfold convertFromString_int. destruct (decimal s) as [z|].
  - destruct ((int_min <=? z) && (z <=? int_max)); [done|]. by intros [= <-].
  - by intros [= <-].
Qed.

Lemma any_cast_int_throws v e : any_cast_int v = Throw e → is_runtime_error e = true.
Proof. destruct v; cbn; [done|]. by intros [= <-]. Qed.

Lemma any_cast_string_throws v e : any_cast_string v = Throw e → is_runtime_error e = true.
Proof. destruct v; cbn; [|done]. by intros [= <-]. Qed.


Lemma text_written_is_converted_on_read_witness :
  let h' := one_store [("out1", any_string "12")] in
  setOutput (T:=string) writer (one_store []) "result" "12" = ([], Returns (true, h'))
  ∧ getParam (T:=Z) reader h' "input" 0 = ([], Returns (true, 12)).
Proof.
  cbv zeta.
  assert (setOutput (T:=string) writer (one_store []) "result" "12"
          = ([], Returns (true, one_store [("out1", any_string "12")]))) as Hset
    by (vm_compute; reflexivity).
  split; [exact Hset|].
  apply (text_written_is_converted_on_read (W:=string) (R:=Z) writer reader _
           "result" "input" "out1" "out1" "12" 0 12 "12" _ _ Hset);
    vm_compute; reflexivity.
Defined.

Lemma setOutput_frame_witness :
  let h := one_store [("out2", any_int 7)] in
  let h' := one_store [("out1", any_int 42); ("out2", any_int 7)] in
  setOutput (T:=Z) writer h "result" 42 = ([], Returns (true, h'))
  ∧ getParam (T:=Z) other h' "input" 0 = getParam (T:=Z) other h "input" 0.
Proof.
  cbv zeta.
  assert (setOutput (T:=Z) writer (one_store [("out2", any_int 7)]) "result" 42
          = ([], Returns (true, one_store [("out1", any_int 42); ("out2", any_int 7)])))
    as Hset by (vm_compute; reflexivity).
  split; [exact Hset|].
  apply (setOutput_frame (W:=Z) (R:=Z) writer other _ "result" "input" "out1" "out2"
           42 0 _ _ _ Hset); [vm_compute; reflexivity | vm_compute; reflexivity |].
  right. vm_compute. discriminate.
Defined.

Lemma getParam_false_keeps_destination_witness :
  getParam (T:=Z) reader (one_store [("out1", any_string "abc")]) "input" 99
  = ([(Cout, "Exception at getParam(input): convertFromString<int>: malformed text")],
     Returns (false, 99))
  ∧ 99 = 99.
Proof.
  assert (getParam (T:=Z) reader (one_store [("out1", any_string "abc")]) "input" 99
    = ([(Cout, "Exception at getParam(input): convertFromString<int>: malformed text")],
       Returns (false, 99))) as Hget by (vm_compute; reflexivity).
  split; [exact Hget|].
  exact (getParam_false_keeps_destination (T:=Z) reader _ "input" 99 _ 99 Hget).
Defined.

Lemma setOutput_false_writes_nothing_witness :
  let n := node (Some 0%nat) [("p", "[5]")] in
  let h := one_store [("p", any_int 7)] in
  setOutput (T:=Z) n h "p" 42
  = ([(Cerr, "setOutput() failed because you are using a parseable string")],
     Returns (false, h))
  ∧ h = h.
Proof.
  cbv zeta.
  assert (setOutput (T:=Z) (node (Some 0%nat) [("p", "[5]")])
            (one_store [("p", any_int 7)]) "p" 42
    = ([(Cerr, "setOutput() failed because you are using a parseable string")],
       Returns (false, one_store [("p", any_int 7)]))) as Hset
    by (vm_compute; reflexivity).
  split; [exact Hset|].
  exact (setOutput_false_writes_nothing (T:=Z) _ _ "p" 42 _ _ Hset).
Defined.

Lemma setOutput_true_writes_one_entry_witness :
  let h := one_store [("out2", any_int 7)] in
  let h' := one_store [("out1", any_int 42); ("out2", any_int 7)] in
  ∃ second a,
    ports_remapping (config_ writer) !! "result" = Some second
    ∧ bb_ writer = Some a
    ∧ ([] : list diagnostic) = []
    ∧ getAny (deref h' a) (remapped "result" second) = Some (make_any (T:=Z) 42)
    ∧ ∀ a' k', a' ≠ a ∨ k' ≠ remapped "result" second →
        getAny (deref h' a') k' = getAny (deref h a') k'.
Proof.
  cbv zeta.
  apply (setOutput_true_writes_one_entry (T:=Z) writer
           (one_store [("out2", any_int 7)]) "result" 42).
  vm_compute. reflexivity.
Defined.

Lemma getParam_literal_ignores_store_witness :
  getParam (T:=string) (node (Some 0%nat) [("p", "[5]")]) (one_store [("p", any_int 7)]) "p" "x"
  = getParam (T:=string) (node None [("p", "[5]"); ("q", "=")]) ∅ "p" "x".
Proof.
  apply (getParam_literal_ignores_store (T:=string) _ _ _ _ "p" "[5]" "x");
    vm_compute; reflexivity.
Defined.

Lemma equal_sign_same_as_own_name_witness :
  let h := one_store [("speed", any_int 7)] in
  getParam (T:=Z) (node (Some 0%nat) [("speed", "=")]) h "speed" 0
  = getParam (T:=Z) (node (Some 0%nat) [("speed", "speed")]) h "speed" 0
  ∧ setOutput (T:=Z) (node (Some 0%nat) [("speed", "=")]) h "speed" 3
    = setOutput (T:=Z) (node (Some 0%nat) [("speed", "speed")]) h "speed" 3.
Proof.
  cbv zeta.
  apply (equal_sign_same_as_own_name (T:=Z) _ _ _ "speed" 0 3);
    vm_compute; reflexivity.
Defined.

Lemma getParam_always_returns_witness :
  ∃ o b d',
    getParam (T:=Z) reader (one_store [("out1", any_string "abc")]) "input" 0
    = (o, Returns (b, d')).
Proof.
  apply (getParam_always_returns (T:=Z)).
  - exact convertFromString_int_throws.
  - exact any_cast_int_throws.
  - exact any_cast_string_throws.
  - reflexivity.
Defined.

Lemma getParam_unwinds_only_other_exceptions_witness :
  @getParam collaborators Z port_stoi reader (one_store [("out1", any_string "abc")]) "input" 0
  = ([], Unwinds (other_exception "stoi"))
  ∧ is_runtime_error (other_exception "stoi") = false
  ∧ ([] : list diagnostic) = [].
Proof.
  assert (@getParam collaborators Z port_stoi reader
            (one_store [("out1", any_string "abc")]) "input" 0
          = ([], Unwinds (other_exception "stoi"))) as Hget
    by (vm_compute; reflexivity).
  split; [exact Hget|].
  exact (@getParam_unwinds_only_other_exceptions collaborators Z port_stoi
           reader _ "input" 0 _ _ Hget).
Defined.

Lemma getParam_stored_text_conversion_failure_witness :
  getParam (T:=Z) reader (one_store [("out1", any_string "abc")]) "input" 5
  = if is_runtime_error (runtime_error "convertFromString<int>: malformed text")
    then ([(Cout, "Exception at getParam(" +:+ "input" +:+ "): "
                  +:+ what (runtime_error "convertFromString<int>: malformed text"))],
          Returns (false, 5))
    else ([], Unwinds (runtime_error "convertFromString<int>: malformed text")).
Proof.
  apply (@getParam_stored_text_conversion_failure collaborators Z port_int reader _
           "input" "out1" 0%nat 5 (any_string "abc") "abc"); vm_compute; reflexivity.
Defined.

Lemma getParam_depends_on_one_entry_witness :
  getParam (T:=Z) reader (one_store [("out1", any_int 42)]) "input" 0
  = getParam (T:=Z) reader
      {[ 0%nat := {[ "out1" := any_int 42; "out2" := any_int 7 ]};
         1%nat := {[ "out1" := any_int 9 ]} ]} "input" 0.
Proof.
  apply (getParam_depends_on_one_entry (T:=Z)).
  intros second a Hmap Hbb.
  assert (second = "out1") as -> by (vm_compute in Hmap; congruence).
  assert (a = 0%nat) as -> by (vm_compute in Hbb; congruence).
  vm_compute. reflexivity.
Defined.

Lemma setOutput_flag_independent_witness :
  ∃ h2',
    setOutput (T:=Z) writer (one_store [("out1", any_string "old")]) "result" 2
    = ([], Returns (true, h2')).
Proof.
  apply (setOutput_flag_independent (T:=Z) writer (one_store []) _ "result" 1 2
           [] true (one_store [("out1", any_int 1)])).
  vm_compute. reflexivity.
Defined.

End ConcreteExtras.

(** ** The optional-returning overload at a concrete input *)

(** C10: the overloads do not agree.  At [T = BT::optional<int>], on a node
    that maps "speed" to "=" over an empty blackboard, the boolean overload
    returns false both for the unmapped key "angle" and for the missing
    entry "speed"; the optional-returning overload returns an engaged
    optional (holding [T(BT::nullopt)]) in both cases, not an empty one. *)
Theorem getParam_optional_engaged_on_failure :
  let n := Concrete.node (Some 0%nat) [("speed", "=")] in
  let h : @heap OptionalInt.collaborators := {[ 0%nat := ∅ ]} in
  let get := @getParam OptionalInt.collaborators (option Z) OptionalInt.port_optional_int in
  let get_optional :=
    @getParam_optional OptionalInt.collaborators (option Z) OptionalInt.port_optional_int
      OptionalInt.optional_int_from_nullopt in
  get n h "angle" None =
    ([(Cerr, "getParam() will fail unless you correctly set remapping in NodeConfiguration")],
     Returns (false, None))
  ∧ get_optional n h "angle" =
    ([(Cerr, "getParam() will fail unless you correctly set remapping in NodeConfiguration")],
     Returns (Some None))
  ∧ get n h "speed" None = ([], Returns (false, None))
  ∧ get_optional n h "speed" = ([], Returns (Some None)).
Proof. cbv zeta. repeat split; vm_compute; reflexivity. Qed.

(** ** Waiting for a valid status *)






Example waitValidStatus_events :
  waitValidStatus (subscribeToStatusChange (Concrete.node None []) 10%nat)
    [IDLE; SUCCESS; FAILURE]
  = Returned SUCCESS
      (with_status (subscribeToStatusChange (Concrete.node None []) 10%nat) SUCCESS)
      [CallbackInvoked 10%nat 1 IDLE SUCCESS; NotifyAll] [FAILURE].
Proof. reflexivity. Qed.
